(** * A shallow embedding of [main.py]: the [/clients], [/products] and
    [/sales] endpoints over a relational store and a CSV file.

    The endpoints are embedded in a state-and-exception monad over a
    [World] that holds the two tables, the file system as [pd.read_csv]
    sees it, the table of sessions and a trace of the effects performed.
    The coercions of the libraries the program calls (pydantic's field
    validation, the store's comparison of a key column with a query
    parameter) are an interface, [Coercions], with the laws the proofs
    use. *)

From Stdlib Require Import ZArith Floats.
From stdpp Require Import base option list strings gmap.

Set Default Proof Using "Type".

(** ** Values and records *)

(** A Python value as found in a record of [df.to_dict(orient='records')]
    or returned by [dict.get]. *)
Inductive pyval : Type :=
| PNone
| PInt (z : Z)
| PFloat (f : float)
| PStr (s : string).

(** A record of the DataFrame: a [dict] from column name to value. *)
Abbreviation row := (gmap string pyval).

(** [d.get(key, default)] *)
Definition dict_get (d : row) (key : string) (dflt : pyval) : pyval :=
  default dflt (d !! key).

(** [class ClientEntity(Base)]: [id] is the primary key, [name] is a
    nullable column. *)
Record ClientEntity : Type := mkClientEntity {
  ce_id : Z;
  ce_name : option string;
}.

(** [class ProductEntity(Base)] *)
Record ProductEntity : Type := mkProductEntity {
  pe_id : Z;
  pe_name : option string;
  pe_price : option float;
}.

(** [class SaleOutput(Sale)]: the four fields of [Sale] and the two names. *)
Record SaleOutput : Type := mkSaleOutput {
  sale_id : Z;
  client_id : Z;
  product_id : Z;
  sale_amount : float;
  client_name : string;
  product_name : string;
}.

(** ** Exceptions and effects *)

Inductive exn : Type :=
| FileNotFoundError
| ParserError (msg : string)
| UnicodeDecodeError (msg : string)
| ValidationError
| OperationalError.

(** [str(e)] as interpolated by the second handler of the loader. *)
Definition exn_str (e : exn) : string :=
  match e with
  | FileNotFoundError => "[Errno 2] No such file or directory"
  | ParserError msg => msg
  | UnicodeDecodeError msg => msg
  | ValidationError => "validation error for SaleOutput"
  | OperationalError => "could not connect to server"
  end.

Inductive result (A : Type) : Type :=
| Ok (a : A)
| Raise (e : exn).
Arguments Ok {A} a.
Arguments Raise {A} e.

Definition Session : Type := nat.

Inductive query : Type :=
| AllClients
| AllProducts
| ClientById (key : pyval)
| ProductById (key : pyval).

Inductive event : Type :=
| EvOpen (db : Session)
| EvClose (db : Session)
| EvQuery (db : Session) (q : query)
| EvPrint (line : string).

(** The state the program runs against. [clients] and [products] are the
    two tables, keyed by primary key; [store_up] tells whether the store
    answers queries; [files] is what [pd.read_csv] yields for each path
    (no entry: the path does not exist); [sessions] lists every session
    created so far, [true] while it is open; [trace] records the effects
    in the order they happened. *)
Record World : Type := mkWorld {
  clients : gmap Z (option string);
  products : gmap Z (option string * option float);
  store_up : bool;
  files : gmap string (list row + exn);
  sessions : list bool;
  trace : list event;
}.

Definition log (ev : event) (w : World) : World :=
  mkWorld (clients w) (products w) (store_up w) (files w) (sessions w)
          (trace w ++ [ev]).

Definition set_sessions (ss : list bool) (w : World) : World :=
  mkWorld (clients w) (products w) (store_up w) (files w) ss (trace w).

(** Computations: state passing with exceptions. *)
Definition M (A : Type) : Type := World -> result A * World.

Definition ret {A} (a : A) : M A := fun w => (Ok a, w).

Definition raise {A} (e : exn) : M A := fun w => (Raise e, w).

Definition bind {A B} (m : M A) (k : A -> M B) : M B := fun w =>
  match m w with
  | (Ok a, w') => k a w'
  | (Raise e, w') => (Raise e, w')
  end.

Declare Scope py_scope.
Delimit Scope py_scope with py.
Notation "x <- m ;; k" := (bind m (fun x => k))
  (at level 100, m at next level, right associativity) : py_scope.
Notation "m ;;; k" := (bind m (fun _ => k))
  (at level 100, right associativity) : py_scope.
Local Open Scope py_scope.

(** [try: body  except Exception as e: handler e] *)
Definition try_except {A} (body : M A) (handler : exn -> M A) : M A := fun w =>
  match body w with
  | (Ok a, w') => (Ok a, w')
  | (Raise e, w') => handler e w'
  end.

(** [try: body  finally: cleanup].  The clean-up runs on both outcomes; the
    outcome of the body is kept unless the clean-up itself raises. *)
Definition try_finally {A} (body : M A) (cleanup : M unit) : M A := fun w =>
  let '(r, w1) := body w in
  match cleanup w1 with
  | (Ok _, w2) => (r, w2)
  | (Raise e, w2) => (Raise e, w2)
  end.

Definition print (line : string) : M unit := fun w => (Ok tt, log (EvPrint line) w).

(** ** Library coercions *)

(** What the program relies on from pydantic and from the store's driver.
    [as_int] and [as_float] are pydantic's validation of an [int] and of a
    [float] field; [sql_key v] is the primary key that satisfies
    [Entity.id == v], if any (an integer key column equals at most one
    integer, and [== None] is rendered [IS NULL], which no primary key
    satisfies). *)
Class Coercions : Type := {
  as_int : pyval -> option Z;
  as_float : pyval -> option float;
  sql_key : pyval -> option Z;
  as_int_PInt : forall z, as_int (PInt z) = Some z;
  as_int_PNone : as_int PNone = None;
  as_float_PFloat : forall f, as_float (PFloat f) = Some f;
  sql_key_PInt : forall z, sql_key (PInt z) = Some z;
  sql_key_PNone : sql_key PNone = None;
}.

(** A validation that accepts exactly the values of the declared type, and
    an integer for a [float] field. *)
Definition exact_int (v : pyval) : option Z :=
  match v with PInt z => Some z | _ => None end.

Definition exact_float (v : pyval) : option float :=
  match v with
  | PFloat f => Some f
  | PInt z => Some (SF2Prim (binary_normalize prec emax z 0 false))
  | _ => None
  end.

Definition exact_coercions : Coercions :=
  {| as_int := exact_int;
     as_float := exact_float;
     sql_key := exact_int;
     as_int_PInt := fun _ => eq_refl;
     as_int_PNone := eq_refl;
     as_float_PFloat := fun _ => eq_refl;
     sql_key_PInt := fun _ => eq_refl;
     sql_key_PNone := eq_refl |}.

(** ** Configuration, sessions and the CSV loader *)

Definition CSV_FILE_PATH : string := "path/to/your/sales.csv".

(** [SessionLocal()]: a new session, open. *)
Definition SessionLocal : M Session := fun w =>
  let db := length (sessions w) in
  (Ok db, log (EvOpen db) (set_sessions (sessions w ++ [true]) w)).

(** [db.close()] *)
Definition close (db : Session) : M unit := fun w =>
  (Ok tt, log (EvClose db) (set_sessions (<[db := false]> (sessions w)) w)).

(** [get_db]: the generator hands [db] to the endpoint at [yield] and is
    resumed, or has the endpoint's exception thrown into it, when the
    endpoint is done. *)
Definition get_db {A} (endpoint : Session -> M A) : M A :=
  db <- SessionLocal ;;
  try_finally (endpoint db) (close db).

(** [pd.read_csv(file_path)] *)
Definition pd_read_csv (file_path : string) : M (list row) := fun w =>
  match files w !! file_path with
  | None => (Raise FileNotFoundError, w)
  | Some (inl df) => (Ok df, w)
  | Some (inr e) => (Raise e, w)
  end.

(** [df.to_dict(orient='records')]: the DataFrame is held as its records. *)
Definition to_dict_records (df : list row) : list row := df.

Definition load_sales_from_csv (file_path : string) : M (list row) :=
  try_except
    (df <- pd_read_csv file_path ;;
     ret (to_dict_records df))
    (fun e =>
       match e with
       | FileNotFoundError =>
           print ("Warning: CSV file not found at '" +:+ file_path
                  +:+ "'. Returning an empty list.") ;;;
           ret []
       | _ =>
           print ("An error occurred while reading the CSV file at '" +:+ file_path
                  +:+ "': " +:+ exn_str e) ;;;
           ret []
       end).

(** ** Queries and endpoints *)

(** A query issued through session [db]: it is recorded, and answered from
    the tables when the store is up. *)
Definition run_query {A} (db : Session) (q : query) (answer : World -> A) : M A :=
  fun w =>
    let w' := log (EvQuery db q) w in
    if store_up w then (Ok (answer w), w') else (Raise OperationalError, w').

Definition all_clients (w : World) : list ClientEntity :=
  (fun kv => mkClientEntity kv.1 kv.2) <$> map_to_list (clients w).

Definition all_products (w : World) : list ProductEntity :=
  (fun kv => mkProductEntity kv.1 kv.2.1 kv.2.2) <$> map_to_list (products w).

(** [db.query(ClientEntity).all()] *)
Definition read_clients (db : Session) : M (list ClientEntity) :=
  clients <- run_query db AllClients all_clients ;;
  ret clients.

(** [db.query(ProductEntity).all()] *)
Definition read_products (db : Session) : M (list ProductEntity) :=
  products <- run_query db AllProducts all_products ;;
  ret products.

Section Sales.
Context {C : Coercions}.

Definition find_client (key : pyval) (w : World) : option ClientEntity :=
  k ← sql_key key; name ← clients w !! k; Some (mkClientEntity k name).

Definition find_product (key : pyval) (w : World) : option ProductEntity :=
  k ← sql_key key; np ← products w !! k; Some (mkProductEntity k np.1 np.2).

(** [db.query(ClientEntity).filter(ClientEntity.id == key).first()] *)
Definition query_client_first (db : Session) (key : pyval) : M (option ClientEntity) :=
  run_query db (ClientById key) (find_client key).

Definition query_product_first (db : Session) (key : pyval) : M (option ProductEntity) :=
  run_query db (ProductById key) (find_product key).

(** [SaleOutput(id=..., ...)]: pydantic validates every field against its
    annotation and raises when one fails; a name is a [str] or [None]. *)
Definition SaleOutput_init (id client_id product_id sale_amount : pyval)
    (client_name product_name : option string) : M SaleOutput :=
  match as_int id, as_int client_id, as_int product_id,
        as_float sale_amount, client_name, product_name with
  | Some i, Some c, Some p, Some a, Some cn, Some pn =>
      ret (mkSaleOutput i c p a cn pn)
  | _, _, _, _, _, _ => raise ValidationError
  end.

(** The body of [for sale_record_csv in sales_data_from_csv], with the list
    being built as accumulator. *)
Fixpoint enrich_loop (db : Session) (sales : list row)
    (enriched_sales_data : list SaleOutput) : M (list SaleOutput) :=
  match sales with
  | [] => ret enriched_sales_data
  | sale_record_csv :: rest =>
      client_db <- query_client_first db (dict_get sale_record_csv "client_id" PNone) ;;
      product_db <- query_product_first db (dict_get sale_record_csv "product_id" PNone) ;;
      sale_output_enriched <-
        SaleOutput_init
          (dict_get sale_record_csv "id" (PInt 0))
          (dict_get sale_record_csv "client_id" PNone)
          (dict_get sale_record_csv "product_id" PNone)
          (dict_get sale_record_csv "sale_amount" (PFloat 0))
          (match client_db with Some c => ce_name c | None => Some "N/A" end)
          (match product_db with Some p => pe_name p | None => Some "N/A" end) ;;
      enrich_loop db rest (enriched_sales_data ++ [sale_output_enriched])
  end.

Definition read_sales (db : Session) : M (list SaleOutput) :=
  sales_data_from_csv <- load_sales_from_csv CSV_FILE_PATH ;;
  match sales_data_from_csv with
  | [] => ret []
  | _ :: _ => enrich_loop db sales_data_from_csv []
  end.

(** ** The API surface *)

Inductive route : Type := GetClients | GetProducts | GetSales.

Inductive response : Type :=
| ClientList (body : list ClientEntity)
| ProductList (body : list ProductEntity)
| SaleList (body : list SaleOutput).

Definition fmap_M {A B} (f : A -> B) (m : M A) : M B :=
  a <- m ;; ret (f a).

Definition endpoint (r : route) (db : Session) : M response :=
  match r with
  | GetClients => fmap_M ClientList (read_clients db)
  | GetProducts => fmap_M ProductList (read_products db)
  | GetSales => fmap_M SaleList (read_sales db)
  end.

(** One request: FastAPI resolves [Depends(get_db)] and calls the endpoint. *)
Definition serve (r : route) : M response := get_db (endpoint r).

(** ** Vocabulary of the specification *)

(** What one pass of the loop body makes of a record against the tables of
    [w], when the store answers: [None] when pydantic rejects a field. *)
Definition enrich_row (w : World) (r : row) : option SaleOutput :=
  i ← as_int (dict_get r "id" (PInt 0));
  c ← as_int (dict_get r "client_id" PNone);
  p ← as_int (dict_get r "product_id" PNone);
  a ← as_float (dict_get r "sale_amount" (PFloat 0));
  cn ← match find_client (dict_get r "client_id" PNone) w with
       | Some e => ce_name e
       | None => Some "N/A"
       end;
  pn ← match find_product (dict_get r "product_id" PNone) w with
       | Some e => pe_name e
       | None => Some "N/A"
       end;
  Some (mkSaleOutput i c p a cn pn).

(** The outcome of [/sales] as a function of the tables and the file. *)
Definition sales_result (w : World) (sales : list row) : result (list SaleOutput) :=
  match sales with
  | [] => Ok []
  | _ :: _ =>
      if store_up w then
        match mapM (enrich_row w) sales with
        | Some out => Ok out
        | None => Raise ValidationError
        end
      else Raise OperationalError
  end.

(** The outcome of each endpoint as a function of the tables and the file. *)
Definition answer (r : route) (w : World) (sales : list row) : result response :=
  match r with
  | GetClients =>
      if store_up w then Ok (ClientList (all_clients w)) else Raise OperationalError
  | GetProducts =>
      if store_up w then Ok (ProductList (all_products w)) else Raise OperationalError
  | GetSales =>
      match sales_result w sales with
      | Ok out => Ok (SaleList out)
      | Raise e => Raise e
      end
  end.

End Sales.

(** The records the loader hands over for [file_path]. *)
Definition loaded (file_path : string) (w : World) : list row :=
  match files w !! file_path with
  | Some (inl df) => df
  | _ => []
  end.

(** What the loader prints for [file_path]. *)
Definition load_prints (file_path : string) (w : World) : list event :=
  match files w !! file_path with
  | Some (inl _) => []
  | None | Some (inr FileNotFoundError) =>
      [EvPrint ("Warning: CSV file not found at '" +:+ file_path
                +:+ "'. Returning an empty list.")]
  | Some (inr e) =>
      [EvPrint ("An error occurred while reading the CSV file at '" +:+ file_path
                +:+ "': " +:+ exn_str e)]
  end.

(** [w] after the effects [evs] were recorded. *)
Definition emit (evs : list event) (w : World) : World :=
  mkWorld (clients w) (products w) (store_up w) (files w) (sessions w)
          (trace w ++ evs).

(** A computation that only reads: it leaves everything but the trace. *)
Definition emits {A} (m : M A) : Prop :=
  forall w, exists evs, snd (m w) = emit evs w.

(** The queries among the effects of a trace. *)
Definition lookups (t : list event) : list query :=
  omap (fun ev => match ev with EvQuery _ q => Some q | _ => None end) t.

(** The sessions of [ss] that are open, numbered from [n]. *)
Fixpoint open_from (n : nat) (ss : list bool) : list Session :=
  match ss with
  | [] => []
  | b :: ss' => (if b then [n] else []) ++ open_from (S n) ss'
  end.

Definition open_sessions (w : World) : list Session := open_from 0 (sessions w).

(** The data a request reads: the two tables, whether the store answers,
    and the files. *)
Definition data (w : World)
  : gmap Z (option string) * gmap Z (option string * option float) * bool
    * gmap string (list row + exn) :=
  (clients w, products w, store_up w, files w).

(** A record as the data model has it: the four fields, typed. *)
Definition well_formed_row (r : row) : Prop :=
  exists i c p a,
    r !! "id" = Some (PInt i) /\ r !! "client_id" = Some (PInt c) /\
    r !! "product_id" = Some (PInt p) /\ r !! "sale_amount" = Some (PFloat a).

(** A record whose two keys are integers and whose [id] and [sale_amount]
    are typed or left out. *)
Definition keyed_row (r : row) : Prop :=
  (exists c, r !! "client_id" = Some (PInt c)) /\
  (exists p, r !! "product_id" = Some (PInt p)) /\
  (r !! "id" = None \/ exists i, r !! "id" = Some (PInt i)) /\
  (r !! "sale_amount" = None \/ exists a, r !! "sale_amount" = Some (PFloat a)).

(** The store as the data model has it: every name is a string. *)
Definition names_present (w : World) : Prop :=
  (forall k, clients w !! k <> Some None) /\
  (forall k price, products w !! k <> Some (None, price)).

(** [so] is what the loop body makes of record [r] against the tables of
    [w], field by field. *)
Record enriches {C : Coercions} (w : World) (r : row) (so : SaleOutput) : Prop := {
  enr_id : as_int (dict_get r "id" (PInt 0)) = Some (sale_id so);
  enr_client_id : as_int (dict_get r "client_id" PNone) = Some (client_id so);
  enr_product_id : as_int (dict_get r "product_id" PNone) = Some (product_id so);
  enr_sale_amount :
    as_float (dict_get r "sale_amount" (PFloat 0)) = Some (sale_amount so);
  enr_client_name :
    match find_client (dict_get r "client_id" PNone) w with
    | Some c => ce_name c
    | None => Some "N/A"
    end = Some (client_name so);
  enr_product_name :
    match find_product (dict_get r "product_id" PNone) w with
    | Some p => pe_name p
    | None => Some "N/A"
    end = Some (product_name so);
}.

(** The rule for names with the sentinel read as a certificate of absence:
    in every output of [/sales], the client name is ["N/A"] exactly when the
    query for the record's [client_id] finds no client. *)
Definition sentinel_iff_absent {C : Coercions} (w : World) : Prop :=
  forall sales out i r so,
    files w !! CSV_FILE_PATH = Some (inl sales) ->
    fst (serve GetSales w) = Ok (SaleList out) ->
    sales !! i = Some r -> out !! i = Some so ->
    (client_name so = "N/A"
     <-> find_client (dict_get r "client_id" PNone) w = None).

(** ** Scenarios *)

Definition widget_row : row :=
  {[ "id" := PInt 1; "client_id" := PInt 1; "product_id" := PInt 9;
     "sale_amount" := PFloat 12.5 ]}.

Definition widget_sale : SaleOutput :=
  mkSaleOutput 1 1 9 12.5 "Acme" "Widget".

(** A world with the given clients, the product [Widget] and one file. *)
Definition world_of (cs : gmap Z (option string)) (up : bool)
    (fs : gmap string (list row + exn)) : World :=
  mkWorld cs {[ 9%Z := (Some "Widget", Some 2.5%float) ]} up fs [] [].

Definition acme_world : World :=
  world_of {[ 1%Z := Some "Acme" ]} true {[ CSV_FILE_PATH := inl [widget_row] ]}.

(** The client of the sale is itself named ["N/A"]. *)
Definition collision_world : World :=
  world_of {[ 1%Z := Some "N/A" ]} true {[ CSV_FILE_PATH := inl [widget_row] ]}.

(** A file whose header has no [client_id] column. *)
Definition keyless_row : row :=
  {[ "id" := PInt 1; "product_id" := PInt 9; "sale_amount" := PFloat 12.5 ]}.

Definition keyless_world : World :=
  world_of {[ 1%Z := Some "Acme" ]} true {[ CSV_FILE_PATH := inl [keyless_row] ]}.

(** A file whose header has the two key columns only. *)
Definition bare_row : row :=
  {[ "client_id" := PInt 1; "product_id" := PInt 9 ]}.

Definition bare_world : World :=
  world_of {[ 1%Z := Some "Acme" ]} true {[ CSV_FILE_PATH := inl [bare_row] ]}.

(** No file at the configured path, and the store down. *)
Definition fileless_world : World :=
  world_of {[ 1%Z := Some "Acme" ]} false ∅.

(** ** The rest of the application *)

(** [async def startup_event()]: one line on the console, nothing else. *)
Definition startup_event : M unit :=
  print "FastAPI application startup complete.".

(** The two queries of the loop body for one record, through session [db]. *)
Definition row_queries (db : Session) (r : row) : list event :=
  [EvQuery db (ClientById (dict_get r "client_id" PNone));
   EvQuery db (ProductById (dict_get r "product_id" PNone))].

(** [w] with the row [(k, name)] written into the clients table. *)
Definition with_client (k : Z) (name : option string) (w : World) : World :=
  mkWorld (<[k := name]> (clients w)) (products w) (store_up w) (files w)
          (sessions w) (trace w).

(** [w] with the row [(k, name, price)] written into the products table. *)
Definition with_product (k : Z) (name : option string) (price : option float)
    (w : World) : World :=
  mkWorld (clients w) (<[k := (name, price)]> (products w)) (store_up w) (files w)
          (sessions w) (trace w).

Section Lifecycle.
Context {C : Coercions}.

(** The effects of the loop over [sales]: both queries of a record are
    issued before its output is built, and the loop ends at the first
    record that is rejected, or at the first query when the store is down. *)
Fixpoint loop_events (db : Session) (w : World) (sales : list row) : list event :=
  match sales with
  | [] => []
  | r :: rest =>
      if store_up w then
        row_queries db r
        ++ match enrich_row w r with
           | Some _ => loop_events db w rest
           | None => []
           end
      else [EvQuery db (ClientById (dict_get r "client_id" PNone))]
  end.

(** Requests served one after the other, each through its own [get_db]; a
    request that fails is answered with its error and the next is served. *)
Fixpoint serve_all (rs : list route) (w : World) : list (result response) * World :=
  match rs with
  | [] => ([], w)
  | r :: rs' =>
      let '(res, w1) := serve r w in
      let '(ress, w2) := serve_all rs' w1 in
      (res :: ress, w2)
  end.

(** The application: the start-up hook, then the requests. *)
Definition run_app (rs : list route) (w : World) : list (result response) * World :=
  let '(_, w0) := startup_event w in
  serve_all rs w0.

End Lifecycle.

(** A sale whose client and product are not in the store. *)
Definition orphan_row : row :=
  {[ "id" := PInt 2; "client_id" := PInt 99; "product_id" := PInt 77;
     "sale_amount" := PFloat 5 ]}.

Definition orphan_world : World :=
  world_of {[ 1%Z := Some "Acme" ]} true {[ CSV_FILE_PATH := inl [orphan_row] ]}.

(** The client of the sale has a NULL name. *)
Definition null_name_world : World :=
  mkWorld {[ 1%Z := None ]} {[ 9%Z := (Some "Widget", Some 2.5%float) ]} true
          {[ CSV_FILE_PATH := inl [widget_row] ]} [] [].

(** A good record, then one without [client_id], then a good one. *)
Definition mixed_world : World :=
  world_of {[ 1%Z := Some "Acme" ]} true
           {[ CSV_FILE_PATH := inl [widget_row; keyless_row; widget_row] ]}.

(** * Properties *)

(** ** The trace only grows *)

Lemma emit_nil w : emit [] w = w.
Proof. destruct w. unfold emit. simpl. by rewrite app_nil_r. Qed.

Lemma emit_emit evs evs' w : emit evs' (emit evs w) = emit (evs ++ evs') w.
Proof. unfold emit. simpl. by rewrite app_assoc. Qed.

Lemma log_emit ev w : log ev w = emit [ev] w.
Proof. reflexivity. Qed.

Lemma emits_ret {A} (a : A) : emits (ret a).
Proof. intros w. exists []. simpl. by rewrite emit_nil. Qed.

Lemma emits_raise {A} e : emits (@raise A e).
Proof. intros w. exists []. simpl. by rewrite emit_nil. Qed.

Lemma emits_bind {A B} (m : M A) (k : A -> M B) :
  emits m -> (forall a, emits (k a)) -> emits (bind m k).
Proof.
  intros Hm Hk w. unfold bind.
  destruct (Hm w) as [evs Hw]. destruct (m w) as [[a|e] w1]; simpl in Hw; subst w1.
  - destruct (Hk a (emit evs w)) as [evs' Hw']. exists (evs ++ evs').
    by rewrite Hw', emit_emit.
  - by exists evs.
Qed.

Lemma emits_try_except {A} (body : M A) (handler : exn -> M A) :
  emits body -> (forall e, emits (handler e)) -> emits (try_except body handler).
Proof.
  intros Hm Hk w. unfold try_except.
  destruct (Hm w) as [evs Hw]. destruct (body w) as [[a|e] w1]; simpl in Hw; subst w1.
  - by exists evs.
  - destruct (Hk e (emit evs w)) as [evs' Hw']. exists (evs ++ evs').
    by rewrite Hw', emit_emit.
Qed.

Lemma emits_print line : emits (print line).
Proof. intros w. by exists [EvPrint line]. Qed.

Lemma emits_run_query {A} db q (f : World -> A) : emits (run_query db q f).
Proof. intros w. exists [EvQuery db q]. unfold run_query. by destruct (store_up w). Qed.

Lemma emits_pd_read_csv file_path : emits (pd_read_csv file_path).
Proof.
  intros w. exists []. unfold pd_read_csv. rewrite emit_nil.
  by destruct (files w !! file_path) as [[df|e]|].
Qed.

Create HintDb emits.
#[local] Hint Resolve emits_ret emits_raise emits_bind emits_try_except emits_print
  emits_run_query emits_pd_read_csv : emits.

Lemma emits_load_sales_from_csv file_path : emits (load_sales_from_csv file_path).
Proof.
  unfold load_sales_from_csv. apply emits_try_except; [auto with emits|].
  intros []; auto with emits.
Qed.

Lemma emits_read_clients db : emits (read_clients db).
Proof. unfold read_clients. auto with emits. Qed.

Lemma emits_read_products db : emits (read_products db).
Proof. unfold read_products. auto with emits. Qed.

#[local] Hint Resolve emits_load_sales_from_csv emits_read_clients
  emits_read_products : emits.

(** ** The loader *)

Lemma load_sales_from_csv_run file_path w :
  load_sales_from_csv file_path w
  = (Ok (loaded file_path w), emit (load_prints file_path w) w).
Proof.
  unfold load_sales_from_csv, try_except, bind, pd_read_csv, loaded, load_prints.
  destruct (files w !! file_path) as [[df|e]|]; simpl.
  - by rewrite emit_nil.
  - by destruct e.
  - done.
Qed.

Lemma lookups_load_prints file_path w : lookups (load_prints file_path w) = [].
Proof.
  unfold load_prints.
  by destruct (files w !! file_path) as [[df|[]]|].
Qed.

Lemma lookups_app t t' : lookups (t ++ t') = lookups t ++ lookups t'.
Proof. apply omap_app. Qed.

(** ** Sessions *)

Lemma open_from_app n ss ss' :
  open_from n (ss ++ ss') = open_from n ss ++ open_from (n + length ss) ss'.
Proof.
  revert n. induction ss as [|b ss IH]; intros n; simpl.
  - by rewrite Nat.add_0_r.
  - rewrite IH, <- app_assoc. by rewrite Nat.add_succ_r.
Qed.

Lemma open_from_bound n ss db : db ∈ open_from n ss -> db < n + length ss.
Proof.
  revert n. induction ss as [|b ss IH]; intros n; simpl.
  - by intros ?%elem_of_nil.
  - rewrite elem_of_app. intros [Hin|Hin].
    + destruct b; [apply list_elem_of_singleton in Hin; lia | by apply elem_of_nil in Hin].
    + apply IH in Hin. lia.
Qed.

Lemma close_last ss : <[length ss := false]> (ss ++ [true]) = ss ++ [false].
Proof. induction ss as [|b ss IH]; simpl; [done | by rewrite IH]. Qed.

Section SalesProperties.
Context {C : Coercions}.

(** ** The join *)

Lemma emits_SaleOutput_init i c p a cn pn : emits (SaleOutput_init i c p a cn pn).
Proof.
  unfold SaleOutput_init.
  destruct (as_int i), (as_int c), (as_int p), (as_float a), cn, pn; auto with emits.
Qed.

Lemma emits_enrich_loop db sales acc : emits (enrich_loop db sales acc).
Proof.
  revert acc. induction sales as [|r rest IH]; intros acc; simpl.
  - auto with emits.
  - unfold query_client_first, query_product_first.
    repeat (apply emits_bind; [auto using emits_SaleOutput_init with emits|intros ?]).
    apply IH.
Qed.

Lemma emits_read_sales db : emits (read_sales db).
Proof.
  unfold read_sales. apply emits_bind; [auto with emits|].
  intros [|r rest]; [auto with emits | apply emits_enrich_loop].
Qed.

Lemma emits_endpoint r db : emits (endpoint r db).
Proof.
  destruct r; unfold endpoint, fmap_M;
    (apply emits_bind; [auto using emits_read_sales with emits | auto with emits]).
Qed.

(** The constructor, on the arguments the loop passes it. *)
Lemma SaleOutput_init_run r w0 w :
  SaleOutput_init
    (dict_get r "id" (PInt 0)) (dict_get r "client_id" PNone)
    (dict_get r "product_id" PNone) (dict_get r "sale_amount" (PFloat 0))
    (match find_client (dict_get r "client_id" PNone) w0 with
     | Some c => ce_name c | None => Some "N/A" end)
    (match find_product (dict_get r "product_id" PNone) w0 with
     | Some p => pe_name p | None => Some "N/A" end) w
  = (match enrich_row w0 r with
     | Some so => Ok so
     | None => Raise ValidationError
     end, w).
Proof.
  unfold SaleOutput_init, enrich_row.
  destruct (as_int (dict_get r "id" (PInt 0))) as [i|]; [|done].
  destruct (as_int (dict_get r "client_id" PNone)) as [c|]; [|done].
  destruct (as_int (dict_get r "product_id" PNone)) as [p|]; [|done].
  destruct (as_float (dict_get r "sale_amount" (PFloat 0))) as [a|]; [|done].
  destruct (match find_client _ w0 with Some e => ce_name e | None => Some "N/A" end)
    as [cn|]; [|done].
  by destruct (match find_product _ w0 with Some e => pe_name e | None => Some "N/A" end).
Qed.

(** The loop returns the accumulator extended with one output per record,
    in order, or raises at the first query when the store is down and at
    the first record pydantic rejects otherwise. *)
Lemma enrich_loop_result db sales acc w :
  fst (enrich_loop db sales acc w)
  = match sales with
    | [] => Ok acc
    | _ :: _ =>
        if store_up w then
          match mapM (enrich_row w) sales with
          | Some out => Ok (acc ++ out)
          | None => Raise ValidationError
          end
        else Raise OperationalError
    end.
Proof.
  revert acc w. induction sales as [|r rest IH]; intros acc w; [done|].
  cbn [enrich_loop]. unfold bind at 1. unfold query_client_first at 1, run_query at 1.
  destruct (store_up w) eqn:Hup; [|done].
  unfold bind at 1. unfold query_product_first at 1, run_query at 1.
  cbn [store_up log]. rewrite Hup.
  unfold bind at 1.
  change (find_product ?k (log _ w)) with (find_product k w).
  rewrite SaleOutput_init_run. cbn [mapM].
  destruct (enrich_row w r) as [so|]; [|done].
  cbn [mbind option_bind]. rewrite IH.
  destruct rest as [|r' rest]; [done|].
  cbn [store_up log]. rewrite Hup.
  change (enrich_row (log _ (log _ w))) with (enrich_row w).
  destruct (mapM (enrich_row w) (r' :: rest)) as [out|]; cbn; [|done].
  by rewrite <- app_assoc.
Qed.

Lemma read_sales_result db w :
  fst (read_sales db w) = sales_result w (loaded CSV_FILE_PATH w).
Proof.
  unfold read_sales, bind. rewrite load_sales_from_csv_run.
  destruct (loaded CSV_FILE_PATH w) as [|r rest]; [done|].
  rewrite enrich_loop_result. unfold sales_result. cbn [store_up emit].
  change (enrich_row (emit _ w)) with (enrich_row w).
  by destruct (store_up w), (mapM (enrich_row w) (r :: rest)).
Qed.

Lemma endpoint_result r db w :
  fst (endpoint r db w) = answer r w (loaded CSV_FILE_PATH w).
Proof.
  destruct r; unfold endpoint, fmap_M, bind, answer.
  - unfold read_clients, bind, run_query. by destruct (store_up w).
  - unfold read_products, bind, run_query. by destruct (store_up w).
  - rewrite <- read_sales_result with (db := db).
    by destruct (read_sales db w) as [[out|e] w'].
Qed.

(** ** One request *)

(** [get_db] around an endpoint that only reads: the endpoint runs with a
    new session, and whatever its outcome the session is closed last. *)
Lemma get_db_run {A} (ep : Session -> M A) w :
  (forall db, emits (ep db)) ->
  let db := length (sessions w) in
  let w1 := log (EvOpen db) (set_sessions (sessions w ++ [true]) w) in
  exists evs,
    get_db ep w
    = (fst (ep db w1),
       mkWorld (clients w) (products w) (store_up w) (files w)
               (sessions w ++ [false])
               (trace w ++ EvOpen db :: evs ++ [EvClose db])).
Proof.
  intros Hep db w1. destruct (Hep db w1) as [evs Hevs]. exists evs.
  unfold get_db, bind, SessionLocal, try_finally. fold db. fold w1.
  destruct (ep db w1) as [res w2]. simpl in Hevs. subst w2.
  unfold close, log, set_sessions, emit. simpl. f_equal. f_equal.
  - apply close_last.
  - by rewrite <- !app_assoc.
Qed.

Lemma serve_run r w :
  let db := length (sessions w) in
  exists evs,
    serve r w
    = (answer r w (loaded CSV_FILE_PATH w),
       mkWorld (clients w) (products w) (store_up w) (files w)
               (sessions w ++ [false])
               (trace w ++ EvOpen db :: evs ++ [EvClose db])).
Proof.
  intros db. destruct (get_db_run (endpoint r) w (emits_endpoint r)) as [evs Hrun].
  exists evs. unfold serve. rewrite Hrun. by rewrite endpoint_result.
Qed.

Lemma serve_result r w : fst (serve r w) = answer r w (loaded CSV_FILE_PATH w).
Proof. destruct (serve_run r w) as [evs ->]. done. Qed.

(** ** Outputs against records *)

Lemma dict_get_Some (r : row) key dflt v : r !! key = Some v -> dict_get r key dflt = v.
Proof. unfold dict_get. by intros ->. Qed.

Lemma dict_get_None (r : row) key dflt : r !! key = None -> dict_get r key dflt = dflt.
Proof. unfold dict_get. by intros ->. Qed.

Lemma find_client_PInt k w :
  find_client (PInt k) w = mkClientEntity k <$> clients w !! k.
Proof. unfold find_client. rewrite sql_key_PInt. simpl. by destruct (clients w !! k). Qed.

Lemma find_product_PInt k w :
  find_product (PInt k) w
  = (fun np => mkProductEntity k np.1 np.2) <$> products w !! k.
Proof. unfold find_product. rewrite sql_key_PInt. simpl. by destruct (products w !! k). Qed.

Lemma enrich_row_Some w r so : enrich_row w r = Some so <-> enriches w r so.
Proof.
  unfold enrich_row. split.
  - intros Hso.
    destruct (as_int (dict_get r "id" (PInt 0))) as [i|] eqn:Hi; [|done].
    destruct (as_int (dict_get r "client_id" PNone)) as [c|] eqn:Hc; [|done].
    destruct (as_int (dict_get r "product_id" PNone)) as [p|] eqn:Hp; [|done].
    destruct (as_float (dict_get r "sale_amount" (PFloat 0))) as [a|] eqn:Ha; [|done].
    destruct (match find_client _ w with Some e => ce_name e | None => Some "N/A" end)
      as [cn|] eqn:Hcn; [|done].
    destruct (match find_product _ w with Some e => pe_name e | None => Some "N/A" end)
      as [pn|] eqn:Hpn; [|done].
    simpl in Hso. injection Hso as <-. by constructor.
  - intros [-> -> -> -> -> ->]. by destruct so.
Qed.

(** Whatever [/sales] returns is the records of the file, enriched one by
    one in the order of the file. *)
Lemma served_sales w sales out :
  files w !! CSV_FILE_PATH = Some (inl sales) ->
  fst (serve GetSales w) = Ok (SaleList out) ->
  Forall2 (enriches w) sales out.
Proof.
  intros Hfile. rewrite serve_result. unfold loaded. rewrite Hfile.
  unfold answer, sales_result. destruct sales as [|r rest].
  - intros [= <-]. constructor.
  - destruct (store_up w); [|done].
    destruct (mapM (enrich_row w) (r :: rest)) as [out'|] eqn:Hmap; [|done].
    intros [= <-]. apply mapM_Some in Hmap.
    eapply Forall2_impl; [exact Hmap|]. intros r' so'. apply enrich_row_Some.
Qed.

(** It does return when the store is up and pydantic accepts every record. *)
Lemma sales_served w sales :
  files w !! CSV_FILE_PATH = Some (inl sales) ->
  store_up w = true ->
  Forall (fun r => is_Some (enrich_row w r)) sales ->
  exists out, fst (serve GetSales w) = Ok (SaleList out).
Proof.
  intros Hfile Hup Hrows. rewrite serve_result. unfold loaded. rewrite Hfile.
  unfold answer, sales_result. destruct sales as [|r rest]; [by exists []|].
  rewrite Hup. apply mapM_is_Some in Hrows. destruct Hrows as [out ->]. by exists out.
Qed.

Lemma keyed_row_enriched w r :
  names_present w -> keyed_row r -> is_Some (enrich_row w r).
Proof.
  intros [Hcn Hpn] ([c Hc] & [p Hp] & Hid & Hamount). unfold enrich_row.
  rewrite (dict_get_Some _ _ _ _ Hc), (dict_get_Some _ _ _ _ Hp).
  rewrite !as_int_PInt, find_client_PInt, find_product_PInt.
  assert (exists i, as_int (dict_get r "id" (PInt 0)) = Some i) as [i ->].
  { destruct Hid as [Hid|[i Hid]].
    - rewrite (dict_get_None _ _ _ Hid), as_int_PInt. by eexists.
    - rewrite (dict_get_Some _ _ _ _ Hid), as_int_PInt. by eexists. }
  assert (exists a, as_float (dict_get r "sale_amount" (PFloat 0)) = Some a) as [a ->].
  { destruct Hamount as [Ha|[a Ha]].
    - rewrite (dict_get_None _ _ _ Ha), as_float_PFloat. by eexists.
    - rewrite (dict_get_Some _ _ _ _ Ha), as_float_PFloat. by eexists. }
  simpl.
  destruct (clients w !! c) as [[cn|]|] eqn:Hcl; simpl; [| by destruct (Hcn c) |].
  all: destruct (products w !! p) as [[[pn|] price]|] eqn:Hpr; simpl;
    try (by destruct (Hpn p price)); by eexists.
Qed.

Lemma well_formed_keyed r : well_formed_row r -> keyed_row r.
Proof. intros (i & c & p & a & Hi & Hc & Hp & Ha). repeat split; eauto. Qed.

(** ** The names of an enriched sale *)

Lemma name_or_sentinel {X} (found : option X) (name : X -> option string) s :
  match found with Some x => name x | None => Some "N/A" end = Some s ->
  match found with Some x => name x = Some s | None => s = "N/A" end /\
  (s = "N/A" <-> found = None \/ exists x, found = Some x /\ name x = Some "N/A").
Proof.
  destruct found as [x|]; intros Hs.
  - split; [done|]. split.
    + intros ->. right. by exists x.
    + intros [?|(x' & [= <-] & Hx)]; [done|]. congruence.
  - injection Hs as <-. split; [done|]. split; [by left | done].
Qed.

(** C1, amended. In every output of [/sales], [client_name] is the name of
    the client that the query for the record's [client_id] finds, and the
    sentinel ["N/A"] when it finds none; so it is ["N/A"] exactly when no
    such client exists or the client found is itself named ["N/A"]. The
    same holds of [product_name] and the record's [product_id]. *)
Theorem sale_names_resolved w sales out i r so :
  files w !! CSV_FILE_PATH = Some (inl sales) ->
  fst (serve GetSales w) = Ok (SaleList out) ->
  sales !! i = Some r ->
  out !! i = Some so ->
  (match find_client (dict_get r "client_id" PNone) w with
   | Some c => ce_name c = Some (client_name so)
   | None => client_name so = "N/A"
   end
   /\ (client_name so = "N/A"
       <-> find_client (dict_get r "client_id" PNone) w = None
           \/ exists c, find_client (dict_get r "client_id" PNone) w = Some c
                        /\ ce_name c = Some "N/A"))
  /\
  (match find_product (dict_get r "product_id" PNone) w with
   | Some p => pe_name p = Some (product_name so)
   | None => product_name so = "N/A"
   end
   /\ (product_name so = "N/A"
       <-> find_product (dict_get r "product_id" PNone) w = None
           \/ exists p, find_product (dict_get r "product_id" PNone) w = Some p
                        /\ pe_name p = Some "N/A")).
Proof.
  intros Hfile Hout Hr Hso.
  pose proof (served_sales w sales out Hfile Hout) as Hall.
  destruct (Forall2_lookup_lr _ _ _ _ _ _ Hall Hr Hso) as [_ _ _ _ Hcn Hpn].
  split; by apply name_or_sentinel.
Qed.

(** For a record whose [client_id] is an integer, in terms of the table. *)
Lemma sale_client_by_id w sales out i r so cid :
  files w !! CSV_FILE_PATH = Some (inl sales) ->
  fst (serve GetSales w) = Ok (SaleList out) ->
  sales !! i = Some r ->
  out !! i = Some so ->
  r !! "client_id" = Some (PInt cid) ->
  client_id so = cid /\
  match clients w !! cid with
  | Some name => name = Some (client_name so)
  | None => client_name so = "N/A"
  end.
Proof.
  intros Hfile Hout Hr Hso Hcid.
  pose proof (served_sales w sales out Hfile Hout) as Hall.
  destruct (Forall2_lookup_lr _ _ _ _ _ _ Hall Hr Hso) as [_ Hc _ _ Hcn _].
  rewrite (dict_get_Some _ _ _ _ Hcid) in Hc, Hcn.
  rewrite as_int_PInt in Hc. rewrite find_client_PInt in Hcn.
  split; [congruence|].
  destruct (clients w !! cid); simpl in Hcn; congruence.
Qed.

(** ** One output per record *)

(** C2. When the file parses to [sales], whatever [/sales] returns has one
    output per record, each the enrichment of the record at the same
    position, so as many outputs as records; and it does return when the
    records are well formed, the names of the store are strings and the
    store is up. *)
Theorem one_output_per_row w sales :
  files w !! CSV_FILE_PATH = Some (inl sales) ->
  (forall out,
     fst (serve GetSales w) = Ok (SaleList out) ->
     length out = length sales
     /\ forall i r, sales !! i = Some r ->
                    exists so, out !! i = Some so /\ enriches w r so)
  /\ (Forall well_formed_row sales -> names_present w -> store_up w = true ->
      exists out, fst (serve GetSales w) = Ok (SaleList out)).
Proof.
  intros Hfile. split.
  - intros out Hout. pose proof (served_sales w sales out Hfile Hout) as Hall.
    split; [symmetry; by eapply Forall2_length|].
    intros i r Hr. by eapply Forall2_lookup_l.
  - intros Hwf Hnames Hup. apply (sales_served w sales Hfile Hup).
    eapply Forall_impl; [exact Hwf|]. intros r Hr.
    by apply keyed_row_enriched, well_formed_keyed.
Qed.

(** ** Records with fields left out *)

(** C10. When the two keys of every record are integers and [id] and
    [sale_amount] are typed or left out, [/sales] returns one output per
    record, and the output of a record without [id] has id [0], that of a
    record without [sale_amount] has amount [0.0]. *)
Theorem missing_id_and_amount_default w sales :
  files w !! CSV_FILE_PATH = Some (inl sales) ->
  Forall keyed_row sales ->
  names_present w ->
  store_up w = true ->
  exists out,
    fst (serve GetSales w) = Ok (SaleList out)
    /\ length out = length sales
    /\ forall i r so,
         sales !! i = Some r -> out !! i = Some so ->
         (r !! "id" = None -> sale_id so = 0%Z)
         /\ (r !! "sale_amount" = None -> sale_amount so = 0%float).
Proof.
  intros Hfile Hkeyed Hnames Hup.
  destruct (sales_served w sales Hfile Hup) as [out Hout].
  { eapply Forall_impl; [exact Hkeyed|]. intros r. by apply keyed_row_enriched. }
  exists out. pose proof (served_sales w sales out Hfile Hout) as Hall.
  split; [done|]. split; [symmetry; by eapply Forall2_length|].
  intros i r so Hr Hso.
  destruct (Forall2_lookup_lr _ _ _ _ _ _ Hall Hr Hso) as [Hid _ _ Ha _ _].
  split; intros Hnone.
  - rewrite (dict_get_None _ _ _ Hnone), as_int_PInt in Hid. congruence.
  - rewrite (dict_get_None _ _ _ Hnone), as_float_PFloat in Ha. congruence.
Qed.

(** C3, what the code does. When a record of the file has no [client_id] or
    no [product_id], [None] reaches the [int] field of [SaleOutput] and the
    request fails with a validation error: no output is emitted for any
    record. *)
Theorem missing_key_fails_request w sales r :
  files w !! CSV_FILE_PATH = Some (inl sales) ->
  store_up w = true ->
  r ∈ sales ->
  r !! "client_id" = None \/ r !! "product_id" = None ->
  fst (serve GetSales w) = Raise ValidationError.
Proof.
  intros Hfile Hup Hin Hkey. rewrite serve_result. unfold loaded. rewrite Hfile.
  unfold answer, sales_result. destruct sales as [|r0 rest]; [by apply elem_of_nil in Hin|].
  rewrite Hup. destruct (mapM (enrich_row w) (r0 :: rest)) as [out|] eqn:Hmap; [|done].
  apply mapM_Some in Hmap.
  apply list_elem_of_lookup in Hin. destruct Hin as [i Hr].
  destruct (Forall2_lookup_l _ _ _ _ _ Hmap Hr) as (so & _ & Hso).
  apply enrich_row_Some in Hso. destruct Hso as [_ Hc Hp _ _ _].
  destruct Hkey as [Hnone|Hnone]; rewrite (dict_get_None _ _ _ Hnone) in *;
    rewrite as_int_PNone in *; done.
Qed.

(** ** The scenario of the specification *)

(** C6. With the client [(1, "Acme")] and the product [(9, "Widget")] in the
    store and the one record [{id: 1, client_id: 1, product_id: 9,
    sale_amount: 12.5}] in the file, [/sales] returns exactly the one
    output with the names ["Acme"] and ["Widget"]. *)
Theorem acme_widget_scenario w price :
  clients w = {[ 1%Z := Some "Acme" ]} ->
  products w = {[ 9%Z := (Some "Widget", price) ]} ->
  store_up w = true ->
  files w !! CSV_FILE_PATH = Some (inl [widget_row]) ->
  fst (serve GetSales w) = Ok (SaleList [widget_sale]).
Proof.
  intros Hclients Hproducts Hup Hfile. rewrite serve_result. unfold loaded. rewrite Hfile.
  unfold answer, sales_result. rewrite Hup. cbn [mapM]. unfold enrich_row.
  replace (dict_get widget_row "id" (PInt 0)) with (PInt 1) by (vm_compute; reflexivity).
  replace (dict_get widget_row "client_id" PNone) with (PInt 1) by (vm_compute; reflexivity).
  replace (dict_get widget_row "product_id" PNone) with (PInt 9) by (vm_compute; reflexivity).
  replace (dict_get widget_row "sale_amount" (PFloat 0)) with (PFloat 12.5)
    by (vm_compute; reflexivity).
  rewrite !as_int_PInt, as_float_PFloat, find_client_PInt, find_product_PInt.
  rewrite Hclients, Hproducts. reflexivity.
Qed.

(** ** The empty file *)

(** C5. When the loader returns no record, [read_sales] returns the empty
    list and does nothing beyond what the loader did: no query is issued,
    whether the store is up or not. *)
Theorem empty_load_short_circuits db w :
  fst (load_sales_from_csv CSV_FILE_PATH w) = Ok [] ->
  read_sales db w = (Ok [], snd (load_sales_from_csv CSV_FILE_PATH w))
  /\ lookups (trace (snd (read_sales db w))) = lookups (trace w).
Proof.
  intros Hload.
  assert (read_sales db w = (Ok [], snd (load_sales_from_csv CSV_FILE_PATH w))) as Hrun.
  { unfold read_sales, bind.
    destruct (load_sales_from_csv CSV_FILE_PATH w) as [[sales|e] w']; simpl in *;
      [|done]. by injection Hload as ->. }
  split; [done|]. rewrite Hrun, load_sales_from_csv_run. simpl.
  by rewrite lookups_app, lookups_load_prints, app_nil_r.
Qed.

(** ** Sessions and the store across a request *)

Lemma open_sessions_closed_last (ss : list bool) :
  open_from 0 (ss ++ [false]) = open_from 0 ss.
Proof. rewrite open_from_app. simpl. by rewrite app_nil_r. Qed.

Lemma open_sessions_serve r w : open_sessions (snd (serve r w)) = open_sessions w.
Proof.
  destruct (serve_run r w) as [evs ->]. unfold open_sessions. simpl.
  apply open_sessions_closed_last.
Qed.

(** C7. Whatever the endpoint and the world it runs in, hence whatever its
    outcome, the session acquired for the request is closed when the request
    completes: the table of sessions is the one before with this session
    added, closed; the session is not among the open ones; and closing it
    is the last effect of the request. *)
Theorem session_released r w :
  let db := length (sessions w) in
  let w' := snd (serve r w) in
  sessions w' = sessions w ++ [false]
  /\ sessions w' !! db = Some false
  /\ (db ∉ open_sessions w')
  /\ exists evs, trace w' = trace w ++ EvOpen db :: evs ++ [EvClose db].
Proof.
  intros db w'. subst w'. rewrite open_sessions_serve.
  destruct (serve_run r w) as [evs ->]. fold db. simpl. repeat split.
  - subst db. by rewrite lookup_app_r, Nat.sub_diag.
  - intros Hin%open_from_bound. subst db. lia.
  - by exists evs.
Qed.

(** C8. A request leaves the two tables of the store as they were, whatever
    the endpoint and whatever its outcome. *)
Theorem store_unchanged r w :
  clients (snd (serve r w)) = clients w
  /\ products (snd (serve r w)) = products w.
Proof. destruct (serve_run r w) as [evs ->]. done. Qed.

Lemma answer_data r w w' :
  data w = data w' ->
  answer r w (loaded CSV_FILE_PATH w) = answer r w' (loaded CSV_FILE_PATH w').
Proof.
  destruct w as [c p u f ss t], w' as [c' p' u' f' ss' t']. unfold data. simpl.
  intros [= -> -> -> ->]. reflexivity.
Qed.

(** C9. The outcome of a request is a function of the data it reads (the
    tables, the state of the store and the files), and a request leaves
    that data and the set of open sessions as they were; so a second call
    returns what the first returned. *)
Theorem serve_deterministic_idempotent r w w' :
  data w = data w' ->
  fst (serve r w) = fst (serve r w')
  /\ data (snd (serve r w)) = data w
  /\ open_sessions (snd (serve r w)) = open_sessions w
  /\ fst (serve r (snd (serve r w))) = fst (serve r w).
Proof.
  intros Hdata.
  assert (data (snd (serve r w)) = data w) as Hsame.
  { destruct (serve_run r w) as [evs ->]. done. }
  repeat split.
  - rewrite !serve_result. by apply answer_data.
  - done.
  - apply open_sessions_serve.
  - rewrite !serve_result. by apply answer_data.
Qed.

End SalesProperties.

(** ** The loader never raises *)

(** C4. For every path and whatever [pd.read_csv] does with it, the loader
    returns a list: the records when the file parses, and the empty list
    when the file is missing or reading it raises. *)
Theorem loader_never_raises file_path w :
  (exists sales, fst (load_sales_from_csv file_path w) = Ok sales)
  /\ (forall df, files w !! file_path = Some (inl df) ->
                 fst (load_sales_from_csv file_path w) = Ok df)
  /\ (files w !! file_path = None ->
      fst (load_sales_from_csv file_path w) = Ok [])
  /\ (forall e, files w !! file_path = Some (inr e) ->
                fst (load_sales_from_csv file_path w) = Ok []).
Proof.
  rewrite load_sales_from_csv_run. unfold loaded. simpl.
  split; [by eexists|]. repeat split.
  - by intros df ->.
  - by intros ->.
  - by intros e ->.
Qed.

(** ** The properties at the scenarios *)

Lemma sale_names_resolved_witness :
  (client_name widget_sale = "N/A"
   <-> find_client (C := exact_coercions)
         (dict_get widget_row "client_id" PNone) acme_world = None
       \/ exists c, find_client (C := exact_coercions)
                      (dict_get widget_row "client_id" PNone) acme_world = Some c
                    /\ ce_name c = Some "N/A")
  /\ (product_name widget_sale = "N/A"
      <-> find_product (C := exact_coercions)
            (dict_get widget_row "product_id" PNone) acme_world = None
          \/ exists p, find_product (C := exact_coercions)
                         (dict_get widget_row "product_id" PNone) acme_world = Some p
                       /\ pe_name p = Some "N/A").
Proof.
  destruct (sale_names_resolved (C := exact_coercions) acme_world
              [widget_row] [widget_sale] 0 widget_row widget_sale)
    as [[_ Hclient] [_ Hproduct]]; [vm_compute; reflexivity..|].
  exact (conj Hclient Hproduct).
Defined.

(** C1 as stated fails where a client is named like the sentinel: the
    output carries ["N/A"] although the client of the record exists. *)
Lemma sentinel_collision : ~ sentinel_iff_absent (C := exact_coercions) collision_world.
Proof.
  intros Hiff.
  destruct (Hiff [widget_row] [mkSaleOutput 1 1 9 12.5 "N/A" "Widget"] 0
              widget_row (mkSaleOutput 1 1 9 12.5 "N/A" "Widget"))
    as [Habsent _]; [vm_compute; reflexivity..|].
  specialize (Habsent eq_refl). vm_compute in Habsent. discriminate Habsent.
Qed.

Lemma names_present_world_of k name up fs :
  names_present (world_of {[ k := Some name ]} up fs).
Proof.
  split; simpl.
  - intros k'. destruct (decide (k' = k)) as [->|Hne].
    + by rewrite lookup_singleton_eq.
    + by rewrite lookup_singleton_ne.
  - intros k' price. destruct (decide (k' = 9%Z)) as [->|Hne].
    + by rewrite lookup_singleton_eq.
    + by rewrite lookup_singleton_ne.
Qed.

Lemma one_output_per_row_witness :
  (forall out,
     fst (serve (C := exact_coercions) GetSales acme_world) = Ok (SaleList out) ->
     length out = 1)
  /\ exists out, fst (serve (C := exact_coercions) GetSales acme_world) = Ok (SaleList out).
Proof.
  destruct (one_output_per_row (C := exact_coercions) acme_world [widget_row])
    as [Hshape Hreturns]; [vm_compute; reflexivity|].
  split.
  - intros out Hout. by destruct (Hshape out Hout).
  - apply Hreturns; [|apply names_present_world_of|vm_compute; reflexivity].
    repeat constructor. exists 1%Z, 1%Z, 9%Z, 12.5%float. repeat split; vm_compute; reflexivity.
Defined.

Lemma missing_id_and_amount_default_witness :
  exists out,
    fst (serve (C := exact_coercions) GetSales bare_world) = Ok (SaleList out)
    /\ length out = 1
    /\ forall so, out !! 0 = Some so ->
                  sale_id so = 0%Z /\ sale_amount so = 0%float.
Proof.
  destruct (missing_id_and_amount_default (C := exact_coercions) bare_world [bare_row])
    as (out & Hout & Hlen & Hdefaults);
    [vm_compute; reflexivity | | apply names_present_world_of | vm_compute; reflexivity |].
  - repeat constructor; try (by left); by eexists.
  - exists out. split; [done|]. split; [done|]. intros so Hso.
    destruct (Hdefaults 0 bare_row so eq_refl Hso) as [Hid Hamount].
    split; [by apply Hid | by apply Hamount].
Defined.

Lemma missing_key_fails_request_witness :
  fst (serve (C := exact_coercions) GetSales keyless_world) = Raise ValidationError.
Proof.
  apply (missing_key_fails_request (C := exact_coercions) keyless_world
           [keyless_row] keyless_row).
  - vm_compute; reflexivity.
  - vm_compute; reflexivity.
  - apply list_elem_of_here.
  - left. vm_compute; reflexivity.
Defined.

Lemma acme_widget_scenario_witness :
  fst (serve (C := exact_coercions) GetSales acme_world) = Ok (SaleList [widget_sale]).
Proof.
  apply (acme_widget_scenario (C := exact_coercions) acme_world (Some 2.5%float));
    vm_compute; reflexivity.
Defined.

Lemma empty_load_short_circuits_witness :
  read_sales (C := exact_coercions) 0 fileless_world
  = (Ok [], snd (load_sales_from_csv CSV_FILE_PATH fileless_world))
  /\ lookups (trace (snd (read_sales (C := exact_coercions) 0 fileless_world))) = [].
Proof.
  apply (empty_load_short_circuits (C := exact_coercions) 0 fileless_world).
  vm_compute; reflexivity.
Defined.

Lemma serve_deterministic_idempotent_witness :
  fst (serve (C := exact_coercions) GetSales acme_world)
  = fst (serve (C := exact_coercions) GetSales
           (snd (serve (C := exact_coercions) GetClients acme_world)))
  /\ data (snd (serve (C := exact_coercions) GetSales acme_world)) = data acme_world
  /\ open_sessions (snd (serve (C := exact_coercions) GetSales acme_world))
     = open_sessions acme_world
  /\ fst (serve (C := exact_coercions) GetSales
            (snd (serve (C := exact_coercions) GetSales acme_world)))
     = fst (serve (C := exact_coercions) GetSales acme_world).
Proof.
  apply (serve_deterministic_idempotent (C := exact_coercions) GetSales acme_world
           (snd (serve (C := exact_coercions) GetClients acme_world))).
  vm_compute; reflexivity.
Defined.

(** The three ways out of a request are all taken: a normal return, a
    validation error and a store failure. *)
Example exit_paths :
  fst (serve (C := exact_coercions) GetSales acme_world) = Ok (SaleList [widget_sale])
  /\ fst (serve (C := exact_coercions) GetSales keyless_world) = Raise ValidationError
  /\ fst (serve (C := exact_coercions) GetClients fileless_world) = Raise OperationalError
  /\ fst (serve (C := exact_coercions) GetSales fileless_world) = Ok (SaleList []).
Proof. repeat split; vm_compute; reflexivity. Qed.

(** * Further properties of the endpoints *)

Section MoreProperties.
Context {C : Coercions}.

(** ** The effects of the join *)

Lemma enrich_row_ext w w' r :
  clients w' = clients w -> products w' = products w ->
  enrich_row w' r = enrich_row w r.
Proof.
  intros Hc Hp. unfold enrich_row, find_client, find_product. by rewrite Hc, Hp.
Qed.

Lemma loop_events_ext db w w' sales :
  store_up w' = store_up w -> clients w' = clients w -> products w' = products w ->
  loop_events db w' sales = loop_events db w sales.
Proof.
  intros Hup Hc Hp. induction sales as [|r rest IH]; [done|].
  cbn [loop_events]. by rewrite Hup, IH, (enrich_row_ext w w' r Hc Hp).
Qed.

Lemma enrich_loop_world db sales acc w :
  snd (enrich_loop db sales acc w) = emit (loop_events db w sales) w.
Proof.
  revert acc w. induction sales as [|r rest IH]; intros acc w.
  - simpl. by rewrite emit_nil.
  - cbn [enrich_loop loop_events]. unfold bind at 1.
    unfold query_client_first at 1, run_query at 1.
    destruct (store_up w) eqn:Hup; [|done].
    unfold bind at 1. unfold query_product_first at 1, run_query at 1.
    cbn [store_up log]. rewrite Hup. unfold bind at 1.
    change (find_product ?k (log _ w)) with (find_product k w).
    rewrite SaleOutput_init_run.
    destruct (enrich_row w r) as [so|].
    + rewrite IH, (loop_events_ext db w) by done.
      by rewrite !log_emit, !emit_emit.
    + simpl. by rewrite !log_emit, emit_emit.
Qed.

Lemma read_sales_world db w :
  snd (read_sales db w)
  = emit (load_prints CSV_FILE_PATH w ++ loop_events db w (loaded CSV_FILE_PATH w)) w.
Proof.
  unfold read_sales, bind. rewrite load_sales_from_csv_run.
  destruct (loaded CSV_FILE_PATH w) as [|r rest].
  - simpl. by rewrite app_nil_r.
  - rewrite enrich_loop_world, (loop_events_ext db w) by done. by rewrite emit_emit.
Qed.

(** The trace of a request, given the effects of its endpoint. *)
Lemma get_db_trace {A} (ep : Session -> M A) w evs :
  let db := length (sessions w) in
  snd (ep db (log (EvOpen db) (set_sessions (sessions w ++ [true]) w)))
  = emit evs (log (EvOpen db) (set_sessions (sessions w ++ [true]) w)) ->
  trace (snd (get_db ep w)) = trace w ++ EvOpen db :: evs ++ [EvClose db].
Proof.
  intros db Hevs. unfold get_db, bind, SessionLocal, try_finally. fold db.
  destruct (ep db _) as [res w2]. simpl in Hevs. subst w2.
  simpl. by rewrite <- !app_assoc.
Qed.

Lemma serve_sales_trace w :
  let db := length (sessions w) in
  trace (snd (serve GetSales w))
  = trace w ++ EvOpen db
      :: (load_prints CSV_FILE_PATH w ++ loop_events db w (loaded CSV_FILE_PATH w))
      ++ [EvClose db].
Proof.
  intros db. unfold serve. apply get_db_trace. fold db.
  unfold endpoint, fmap_M, bind.
  pose proof (read_sales_world db (log (EvOpen db) (set_sessions (sessions w ++ [true]) w)))
    as Hw.
  destruct (read_sales db _) as [[out|e] w2]; simpl in Hw |- *; subst w2;
    by rewrite (loop_events_ext db w).
Qed.

Lemma loop_events_accepted db w sales :
  store_up w = true ->
  Forall (fun r => is_Some (enrich_row w r)) sales ->
  loop_events db w sales = concat (row_queries db <$> sales).
Proof.
  intros Hup. induction 1 as [|r rest [so Hso] _ IH]; [done|].
  cbn [loop_events]. by rewrite Hup, Hso, IH.
Qed.

Lemma loop_events_rejected db w pre r post :
  store_up w = true ->
  Forall (fun r => is_Some (enrich_row w r)) pre ->
  enrich_row w r = None ->
  loop_events db w (pre ++ r :: post) = concat (row_queries db <$> (pre ++ [r])).
Proof.
  intros Hup Hpre Hr. induction Hpre as [|r0 rest [so Hso] _ IH].
  - cbn [loop_events app]. by rewrite Hup, Hr.
  - cbn [loop_events app]. by rewrite Hup, Hso, IH.
Qed.

(** X5. A request to [/sales] that returns has issued, through the session
    of the request and between opening and closing it, the client query and
    then the product query of each record, in the order of the file, and
    nothing else. *)
Theorem sales_two_queries_per_record w sales out :
  files w !! CSV_FILE_PATH = Some (inl sales) ->
  fst (serve GetSales w) = Ok (SaleList out) ->
  trace (snd (serve GetSales w))
  = trace w ++ EvOpen (length (sessions w))
      :: concat (row_queries (length (sessions w)) <$> sales)
      ++ [EvClose (length (sessions w))].
Proof.
  intros Hfile Hout. rewrite serve_sales_trace. unfold load_prints, loaded.
  rewrite Hfile. cbn [app]. do 3 f_equal.
  destruct sales as [|r rest]; [done|].
  rewrite serve_result in Hout. unfold loaded in Hout. rewrite Hfile in Hout.
  unfold answer, sales_result in Hout.
  destruct (store_up w) eqn:Hup; [|done].
  destruct (mapM (enrich_row w) (r :: rest)) as [out'|] eqn:Hmap; [|done].
  apply loop_events_accepted; [done|].
  apply (mapM_is_Some_1 (enrich_row w)). by rewrite Hmap.
Qed.

(** X6. The loop stops at the first record pydantic rejects: the request
    fails with a validation error, having queried the records before it and
    the rejected record itself, and none of the records after it. *)
Theorem sales_stop_at_first_rejected w pre r post :
  files w !! CSV_FILE_PATH = Some (inl (pre ++ r :: post)) ->
  store_up w = true ->
  Forall (fun r0 => is_Some (enrich_row w r0)) pre ->
  enrich_row w r = None ->
  fst (serve GetSales w) = Raise ValidationError
  /\ trace (snd (serve GetSales w))
     = trace w ++ EvOpen (length (sessions w))
         :: concat (row_queries (length (sessions w)) <$> (pre ++ [r]))
         ++ [EvClose (length (sessions w))].
Proof.
  intros Hfile Hup Hpre Hr. split.
  - rewrite serve_result. unfold loaded. rewrite Hfile. unfold answer, sales_result.
    destruct (pre ++ r :: post) as [|r0 rest] eqn:Hsales; [by destruct pre|].
    rewrite Hup, <- Hsales.
    rewrite (mapM_None_2 (enrich_row w)); [done|].
    apply Exists_app. right. by constructor.
  - rewrite serve_sales_trace. unfold load_prints, loaded. rewrite Hfile. cbn [app].
    by rewrite loop_events_rejected.
Qed.

(** X7. With the store up and a file that parses, [/sales] returns if every
    record is accepted on its own and fails with a validation error if any
    one is rejected: there is no partial result. *)
Theorem sales_all_or_nothing w sales :
  files w !! CSV_FILE_PATH = Some (inl sales) ->
  store_up w = true ->
  ((exists out, fst (serve GetSales w) = Ok (SaleList out))
   <-> Forall (fun r => is_Some (enrich_row w r)) sales)
  /\ (fst (serve GetSales w) = Raise ValidationError
      <-> Exists (fun r => enrich_row w r = None) sales).
Proof.
  intros Hfile Hup. rewrite serve_result. unfold loaded. rewrite Hfile.
  unfold answer, sales_result. destruct sales as [|r rest].
  - split; split; try done.
    + by exists [].
    + by intros ?%Exists_nil.
  - rewrite Hup.
    pose proof (mapM_is_Some (enrich_row w) (r :: rest)) as Hsome.
    pose proof (mapM_None (enrich_row w) (r :: rest)) as Hnone.
    destruct (mapM (enrich_row w) (r :: rest)) as [out|]; split; split; try done.
    + intros _. by apply Hsome.
    + by eexists.
    + intros Hex. by apply Hnone in Hex.
    + intros [out' ?]. done.
    + intros Hall. apply Hsome in Hall. by destruct Hall.
    + intros _. by apply Hnone.
Qed.

(** ** The listings *)





(** ** The store down, the file unreadable *)

(** X3. With the store down, [/clients] and [/products] fail with the
    store's error; [/sales] fails with it when the file has a record, and
    returns the empty list when the file is empty, missing or unreadable,
    since it then never reaches the store. *)
Theorem store_down_outcomes w :
  store_up w = false ->
  fst (serve GetClients w) = Raise OperationalError
  /\ fst (serve GetProducts w) = Raise OperationalError
  /\ (forall r rest,
        files w !! CSV_FILE_PATH = Some (inl (r :: rest)) ->
        fst (serve GetSales w) = Raise OperationalError)
  /\ ((forall r rest, files w !! CSV_FILE_PATH <> Some (inl (r :: rest))) ->
      fst (serve GetSales w) = Ok (SaleList [])).
Proof.
  intros Hdown. rewrite !serve_result. unfold answer, sales_result, loaded.
  rewrite Hdown. repeat split.
  - by intros r rest ->.
  - intros Hnone. destruct (files w !! CSV_FILE_PATH) as [[[|r rest]|e]|]; try done.
    by destruct (Hnone r rest).
Qed.

(** X4. When the file is missing or reading it raises, a request to
    [/sales] returns the empty list and does three things only: it opens
    its session, prints one line, and closes the session; for a missing
    file the line is the warning that names the configured path. *)
Theorem unreadable_file_request w :
  files w !! CSV_FILE_PATH = None \/ (exists e, files w !! CSV_FILE_PATH = Some (inr e)) ->
  fst (serve GetSales w) = Ok (SaleList [])
  /\ exists line,
       trace (snd (serve GetSales w))
       = trace w ++ [EvOpen (length (sessions w)); EvPrint line;
                     EvClose (length (sessions w))]
       /\ (files w !! CSV_FILE_PATH = None ->
           line = "Warning: CSV file not found at 'path/to/your/sales.csv'. Returning an empty list.").
Proof.
  intros Hfile. rewrite serve_result, serve_sales_trace. unfold loaded, load_prints.
  destruct Hfile as [->|[e ->]]; (split; [done|]).
  - by eexists.
  - destruct e; by eexists.
Qed.

(** ** Records and rows of the store *)

Lemma rejected_fails w sales r :
  files w !! CSV_FILE_PATH = Some (inl sales) ->
  store_up w = true ->
  r ∈ sales ->
  enrich_row w r = None ->
  fst (serve GetSales w) = Raise ValidationError.
Proof.
  intros Hfile Hup Hin Hr. rewrite serve_result. unfold loaded. rewrite Hfile.
  unfold answer, sales_result. destruct sales as [|r0 rest]; [by apply elem_of_nil in Hin|].
  rewrite Hup, (mapM_None_2 (enrich_row w)); [done|].
  apply Exists_exists. by exists r.
Qed.

(** X8. A NULL name in the store fails the whole request: when a record of
    the file refers, by an integer key, to a client or to a product whose
    name column is NULL, [/sales] raises a validation error. *)
Theorem null_name_fails_request w sales r :
  files w !! CSV_FILE_PATH = Some (inl sales) ->
  store_up w = true ->
  r ∈ sales ->
  (exists c, r !! "client_id" = Some (PInt c) /\ clients w !! c = Some None)
  \/ (exists p price, r !! "product_id" = Some (PInt p)
                      /\ products w !! p = Some (None, price)) ->
  fst (serve GetSales w) = Raise ValidationError.
Proof.
  intros Hfile Hup Hin Hnull. apply (rejected_fails w sales r Hfile Hup Hin).
  unfold enrich_row.
  destruct (as_int (dict_get r "id" (PInt 0))); [|done].
  destruct (as_int (dict_get r "client_id" PNone)); [|done].
  destruct (as_int (dict_get r "product_id" PNone)); [|done].
  destruct (as_float (dict_get r "sale_amount" (PFloat 0))); [|done].
  cbn [mbind option_bind].
  destruct Hnull as [(c & Hc & Hname)|(p & price & Hp & Hname)].
  - by rewrite (dict_get_Some _ _ _ _ Hc), find_client_PInt, Hname.
  - rewrite (dict_get_Some _ _ _ _ Hp), find_product_PInt, Hname. simpl.
    by destruct (match find_client _ w with Some e => ce_name e | None => Some "N/A" end).
Qed.

(** X9. Dangling keys are never rejected: when the records are well formed
    and no client and no product of the store has the id a record refers
    to, [/sales] returns one output per record, every one with ["N/A"] for
    both names, whatever else the store holds. *)
Theorem dangling_keys_get_sentinel w sales :
  files w !! CSV_FILE_PATH = Some (inl sales) ->
  store_up w = true ->
  Forall well_formed_row sales ->
  (forall r c, r ∈ sales -> r !! "client_id" = Some (PInt c) -> clients w !! c = None) ->
  (forall r p, r ∈ sales -> r !! "product_id" = Some (PInt p) -> products w !! p = None) ->
  exists out,
    fst (serve GetSales w) = Ok (SaleList out)
    /\ length out = length sales
    /\ forall so, so ∈ out -> client_name so = "N/A" /\ product_name so = "N/A".
Proof.
  intros Hfile Hup Hwf Hclients Hproducts.
  assert (forall r, r ∈ sales ->
            find_client (dict_get r "client_id" PNone) w = None
            /\ find_product (dict_get r "product_id" PNone) w = None
            /\ is_Some (enrich_row w r)) as Hrows.
  { intros r Hin. rewrite Forall_forall in Hwf.
    destruct (Hwf r Hin) as (i & c & p & a & Hi & Hc & Hp & Ha).
    unfold enrich_row.
    rewrite (dict_get_Some _ _ _ _ Hi), (dict_get_Some _ _ _ _ Hc),
      (dict_get_Some _ _ _ _ Hp), (dict_get_Some _ _ _ _ Ha).
    rewrite !as_int_PInt, as_float_PFloat, find_client_PInt, find_product_PInt.
    rewrite (Hclients r c Hin Hc), (Hproducts r p Hin Hp). simpl. by eauto. }
  destruct (sales_served w sales Hfile Hup) as [out Hout].
  { apply Forall_forall. intros r Hin. by apply Hrows. }
  exists out. pose proof (served_sales w sales out Hfile Hout) as Hall.
  split; [done|]. split; [symmetry; by eapply Forall2_length|].
  intros so Hso. apply list_elem_of_lookup in Hso. destruct Hso as [i Hso].
  destruct (Forall2_lookup_r _ _ _ _ _ Hall Hso) as (r & Hr & [_ _ _ _ Hcn Hpn]).
  apply list_elem_of_lookup_2 in Hr. destruct (Hrows r Hr) as (Hnc & Hnp & _).
  rewrite Hnc in Hcn. rewrite Hnp in Hpn. split; congruence.
Qed.

(** X10. The four fields of [Sale] pass through unchanged: the output at a
    position carries the [id], [client_id], [product_id] and [sale_amount]
    of the record at that position, wherever the record has them typed. *)
Theorem sale_fields_passed_through w sales out i r so :
  files w !! CSV_FILE_PATH = Some (inl sales) ->
  fst (serve GetSales w) = Ok (SaleList out) ->
  sales !! i = Some r ->
  out !! i = Some so ->
  (forall n, r !! "id" = Some (PInt n) -> sale_id so = n)
  /\ (forall c, r !! "client_id" = Some (PInt c) -> client_id so = c)
  /\ (forall p, r !! "product_id" = Some (PInt p) -> product_id so = p)
  /\ (forall a, r !! "sale_amount" = Some (PFloat a) -> sale_amount so = a).
Proof.
  intros Hfile Hout Hr Hso.
  pose proof (served_sales w sales out Hfile Hout) as Hall.
  destruct (Forall2_lookup_lr _ _ _ _ _ _ Hall Hr Hso) as [Hi Hc Hp Ha _ _].
  repeat split; intros v Hv; rewrite (dict_get_Some _ _ _ _ Hv) in *;
    rewrite ?as_int_PInt, ?as_float_PFloat in *; congruence.
Qed.

(** ** Rows no sale refers to *)

Lemma serve_sales_ext w w' sales :
  files w !! CSV_FILE_PATH = Some (inl sales) ->
  files w' = files w ->
  store_up w' = store_up w ->
  (forall r, r ∈ sales -> enrich_row w' r = enrich_row w r) ->
  fst (serve GetSales w') = fst (serve GetSales w).
Proof.
  intros Hfile Hfiles Hup Hrows. rewrite !serve_result. unfold loaded.
  rewrite Hfiles, Hfile. unfold answer, sales_result. rewrite Hup.
  rewrite (Forall_mapM_ext (enrich_row w') (enrich_row w) sales); [done|].
  by apply Forall_forall.
Qed.

(** X11. Writing a clients row that no record of the file refers to, be it
    a new client or a change to an existing one, leaves what [/sales]
    returns as it was. *)
Theorem unreferenced_client_irrelevant w sales k name :
  files w !! CSV_FILE_PATH = Some (inl sales) ->
  (forall r, r ∈ sales -> sql_key (dict_get r "client_id" PNone) <> Some k) ->
  fst (serve GetSales (with_client k name w)) = fst (serve GetSales w).
Proof.
  intros Hfile Hkeys. apply (serve_sales_ext w _ sales Hfile); [done..|].
  intros r Hin. unfold enrich_row, find_client, find_product. cbn [clients products with_client].
  destruct (sql_key (dict_get r "client_id" PNone)) as [c|] eqn:Hc; [|done].
  cbn [mbind option_bind]. rewrite lookup_insert_ne; [done|].
  intros <-. by apply (Hkeys r Hin).
Qed.

(** X12. Writing a products row that no record of the file refers to
    leaves what [/sales] returns as it was. *)
Theorem unreferenced_product_irrelevant w sales k name price :
  files w !! CSV_FILE_PATH = Some (inl sales) ->
  (forall r, r ∈ sales -> sql_key (dict_get r "product_id" PNone) <> Some k) ->
  fst (serve GetSales (with_product k name price w)) = fst (serve GetSales w).
Proof.
  intros Hfile Hkeys. apply (serve_sales_ext w _ sales Hfile); [done..|].
  intros r Hin. unfold enrich_row, find_client, find_product. cbn [clients products with_product].
  destruct (sql_key (dict_get r "product_id" PNone)) as [p|] eqn:Hp; [|done].
  cbn [mbind option_bind]. rewrite lookup_insert_ne; [done|].
  intros <-. by apply (Hkeys r Hin).
Qed.

(** ** The application over time *)

Lemma open_from_closed n k : open_from k (replicate n false) = [].
Proof. revert k. induction n as [|n IH]; intros k; simpl; [done | apply IH]. Qed.

Lemma serve_all_run rs w :
  exists evs,
    serve_all rs w
    = ((fun r => answer r w (loaded CSV_FILE_PATH w)) <$> rs,
       mkWorld (clients w) (products w) (store_up w) (files w)
               (sessions w ++ replicate (length rs) false)
               (trace w ++ evs)).
Proof.
  revert w. induction rs as [|r rs IH]; intros w.
  - exists []. destruct w. simpl. by rewrite !app_nil_r.
  - cbn [serve_all]. destruct (serve_run r w) as [evs ->].
    match goal with |- context [serve_all rs ?w1] =>
      destruct (IH w1) as [evs' ->]; set (w' := w1) end.
    exists ((EvOpen (length (sessions w)) :: evs ++ [EvClose (length (sessions w))]) ++ evs').
    subst w'. cbn [fmap list_fmap clients products store_up files sessions trace length].
    f_equal. f_equal; by rewrite <- app_assoc.
Qed.

(** X13. From start-up on, over any sequence of requests: every request is
    answered, with what it would be answered alone on the initial data; each
    request has created one session and all of them are closed; the open
    sessions and the two tables are those of the start. *)
Theorem run_app_invariants rs w :
  length (fst (run_app rs w)) = length rs
  /\ (forall i r, rs !! i = Some r ->
                  fst (run_app rs w) !! i = Some (fst (serve r w)))
  /\ sessions (snd (run_app rs w)) = sessions w ++ replicate (length rs) false
  /\ open_sessions (snd (run_app rs w)) = open_sessions w
  /\ clients (snd (run_app rs w)) = clients w
  /\ products (snd (run_app rs w)) = products w.
Proof.
  unfold run_app, startup_event, print.
  destruct (serve_all_run rs (log (EvPrint "FastAPI application startup complete.") w))
    as [evs ->].
  cbn [fst snd clients products store_up files sessions trace log]. repeat split.
  - by rewrite length_fmap.
  - intros i r Hr. rewrite list_lookup_fmap, Hr. simpl. f_equal.
    rewrite serve_result. by apply answer_data.
  - unfold open_sessions. cbn [sessions].
    by rewrite open_from_app, open_from_closed, app_nil_r.
Qed.

End MoreProperties.

(** ** The further properties at the scenarios *)



Lemma store_down_outcomes_witness :
  fst (serve (C := exact_coercions) GetClients fileless_world) = Raise OperationalError
  /\ fst (serve (C := exact_coercions) GetSales fileless_world) = Ok (SaleList []).
Proof.
  destruct (store_down_outcomes (C := exact_coercions) fileless_world)
    as (Hclients & _ & _ & Hsales); [vm_compute; reflexivity|].
  split; [done|]. apply Hsales. intros r rest. vm_compute. discriminate.
Defined.

Lemma unreadable_file_request_witness :
  fst (serve (C := exact_coercions) GetSales fileless_world) = Ok (SaleList []).
Proof.
  apply (unreadable_file_request (C := exact_coercions) fileless_world).
  left. vm_compute; reflexivity.
Defined.

Lemma sales_two_queries_per_record_witness :
  trace (snd (serve (C := exact_coercions) GetSales acme_world))
  = [EvOpen 0; EvQuery 0 (ClientById (PInt 1)); EvQuery 0 (ProductById (PInt 9));
     EvClose 0].
Proof.
  rewrite (sales_two_queries_per_record (C := exact_coercions) acme_world
             [widget_row] [widget_sale]); vm_compute; reflexivity.
Defined.

Lemma sales_stop_at_first_rejected_witness :
  fst (serve (C := exact_coercions) GetSales mixed_world) = Raise ValidationError
  /\ lookups (trace (snd (serve (C := exact_coercions) GetSales mixed_world)))
     = [ClientById (PInt 1); ProductById (PInt 9); ClientById PNone; ProductById (PInt 9)].
Proof.
  destruct (sales_stop_at_first_rejected (C := exact_coercions) mixed_world
              [widget_row] keyless_row [widget_row]) as [Hres Htrace].
  - vm_compute; reflexivity.
  - vm_compute; reflexivity.
  - repeat constructor. exists widget_sale. vm_compute; reflexivity.
  - vm_compute; reflexivity.
  - split; [done|]. rewrite Htrace. vm_compute; reflexivity.
Defined.

Lemma sales_all_or_nothing_witness :
  (exists out, fst (serve (C := exact_coercions) GetSales acme_world) = Ok (SaleList out))
  /\ ~ Exists (fun r => enrich_row (C := exact_coercions) acme_world r = None) [widget_row].
Proof.
  destruct (sales_all_or_nothing (C := exact_coercions) acme_world [widget_row])
    as [[_ Hok] [_ Hfail]]; [vm_compute; reflexivity..|].
  split.
  - apply Hok. repeat constructor. exists widget_sale. vm_compute; reflexivity.
  - intros Hex. apply Hfail in Hex. vm_compute in Hex. discriminate Hex.
Defined.

Lemma null_name_fails_request_witness :
  fst (serve (C := exact_coercions) GetSales null_name_world) = Raise ValidationError.
Proof.
  apply (null_name_fails_request (C := exact_coercions) null_name_world
           [widget_row] widget_row).
  - vm_compute; reflexivity.
  - vm_compute; reflexivity.
  - apply list_elem_of_here.
  - left. exists 1%Z. split; vm_compute; reflexivity.
Defined.

Lemma dangling_keys_get_sentinel_witness :
  exists out,
    fst (serve (C := exact_coercions) GetSales orphan_world) = Ok (SaleList out)
    /\ length out = 1
    /\ forall so, so ∈ out -> client_name so = "N/A" /\ product_name so = "N/A".
Proof.
  apply (dangling_keys_get_sentinel (C := exact_coercions) orphan_world [orphan_row]).
  - vm_compute; reflexivity.
  - vm_compute; reflexivity.
  - repeat constructor. exists 2%Z, 99%Z, 77%Z, 5%float.
    repeat split; vm_compute; reflexivity.
  - intros r c ->%list_elem_of_singleton Hc. vm_compute in Hc.
    injection Hc as <-. vm_compute; reflexivity.
  - intros r p ->%list_elem_of_singleton Hp. vm_compute in Hp.
    injection Hp as <-. vm_compute; reflexivity.
Defined.

Lemma sale_fields_passed_through_witness :
  sale_id widget_sale = 1%Z /\ client_id widget_sale = 1%Z
  /\ product_id widget_sale = 9%Z /\ sale_amount widget_sale = 12.5%float.
Proof.
  destruct (sale_fields_passed_through (C := exact_coercions) acme_world
              [widget_row] [widget_sale] 0 widget_row widget_sale)
    as (Hi & Hc & Hp & Ha); [vm_compute; reflexivity..|].
  split; [apply Hi | split; [apply Hc | split; [apply Hp | apply Ha]]];
    vm_compute; reflexivity.
Defined.

Lemma unreferenced_client_irrelevant_witness :
  fst (serve (C := exact_coercions) GetSales (with_client 2 (Some "Bolt") acme_world))
  = fst (serve (C := exact_coercions) GetSales acme_world).
Proof.
  apply (unreferenced_client_irrelevant (C := exact_coercions) acme_world [widget_row]).
  - vm_compute; reflexivity.
  - intros r ->%list_elem_of_singleton. vm_compute. discriminate.
Defined.

Lemma unreferenced_product_irrelevant_witness :
  fst (serve (C := exact_coercions) GetSales
         (with_product 10 (Some "Gadget") None acme_world))
  = fst (serve (C := exact_coercions) GetSales acme_world).
Proof.
  apply (unreferenced_product_irrelevant (C := exact_coercions) acme_world [widget_row]).
  - vm_compute; reflexivity.
  - intros r ->%list_elem_of_singleton. vm_compute. discriminate.
Defined.
